(** * komorebidb structs: components, views, revisions and their manifests

    A shallow embedding of [accumulo/contrib/komorebidb/structs.py]: the
    [View] / [Component] data model, the [Revision] compiler that turns
    components into physical mutations plus a key-set manifest, and the
    [RevisionDelete] compiler that is to turn stored manifests back into
    delete markers. *)

From Stdlib Require Import List NArith ZArith Lia Bool.
From Stdlib Require Import Strings.Byte.
From Equations Require Import Equations.
Import ListNotations.

Set Implicit Arguments.

(** ** Bytes and text *)

(** Python [bytes]. *)
Definition bytes := list byte.

(** Total conversion of a number below 256 to a byte. *)
Definition byte_of_N (n : N) : byte :=
  match Byte.of_N n with
  | Some b => b
  | None => x00
  end.

(** Python [str]: a sequence of Unicode code points.  The text handled here
    is encodable text (Unicode scalar values); [str.encode()] raises on a
    lone surrogate, which is outside this model. *)
Definition codepoint := N.
Definition str := list codepoint.

(** UTF-8 encoding of one code point ([str.encode()] uses UTF-8). *)
Definition utf8_encode_cp (c : codepoint) : bytes :=
  if (c <? 128)%N then [byte_of_N c]
  else if (c <? 2048)%N then
    [byte_of_N (192 + c / 64); byte_of_N (128 + c mod 64)]
  else if (c <? 65536)%N then
    [byte_of_N (224 + c / 4096); byte_of_N (128 + (c / 64) mod 64);
     byte_of_N (128 + c mod 64)]
  else
    [byte_of_N (240 + (c / 262144) mod 8); byte_of_N (128 + (c / 4096) mod 64);
     byte_of_N (128 + (c / 64) mod 64); byte_of_N (128 + c mod 64)].

Definition str_encode (s : str) : bytes := flat_map utf8_encode_cp s.

(** [T_ENCODABLE = Union[str, bytes]]. *)
Inductive T_ENCODABLE : Type :=
| Str (s : str)
| Bytes (b : bytes).

(** Modelled from the spec: [accumulo.core.structs.encode], which is not part
    of this module.  The mutation primitive "must support
    row/family/qualifier/visibility as byte-string-or-text inputs normalized
    consistently": text is encoded, bytes are kept. *)
Definition encode (v : T_ENCODABLE) : bytes :=
  match v with
  | Str s => str_encode s
  | Bytes b => b
  end.

(** ['_meta\x00'] *)
Definition METADATA_COMPONENT_PREFIX : str := [95; 109; 101; 116; 97; 0]%N.
Definition METADATA_COMPONENT_PREFIX_BYTES : bytes :=
  str_encode METADATA_COMPONENT_PREFIX.

(** ** The mutation primitive *)

(** Modelled from the spec: [accumulo.Mutation], which is not part of this
    module.  It is "constructed as (row, family, qualifier, visibility,
    timestamp, value) or (row, family, qualifier, visibility, timestamp,
    delete=true)"; a delete marker keeps the default empty value. *)
Record Mutation : Type := mkMutation {
  row : T_ENCODABLE;
  cf : T_ENCODABLE;
  cq : T_ENCODABLE;
  visibility : T_ENCODABLE;
  timestamp : Z;
  value : T_ENCODABLE;
  delete : bool
}.

(** [Mutation(row, cf, cq, visibility, timestamp, value)] *)
Definition Mutation_put (r f q v : T_ENCODABLE) (ts : Z) (val : T_ENCODABLE)
  : Mutation :=
  mkMutation r f q v ts val false.

(** [Mutation(row, cf, cq, visibility, timestamp, delete=True)] *)
Definition Mutation_delete (r f q v : T_ENCODABLE) (ts : Z) : Mutation :=
  mkMutation r f q v ts (Bytes []) true.

Definition row_bytes (m : Mutation) : bytes := encode (row m).
Definition cf_bytes (m : Mutation) : bytes := encode (cf m).
Definition cq_bytes (m : Mutation) : bytes := encode (cq m).
Definition visibility_bytes (m : Mutation) : bytes := encode (visibility m).

(** ** The key-set manifest codec *)

Module komorebi_pb2.

(** Key descriptor [(row, cf, cq, visibility)], all byte strings. *)
Record Key : Type := mkKey {
  row : bytes;
  cf : bytes;
  cq : bytes;
  visibility : bytes
}.

(** The manifest: an ordered sequence of key descriptors. *)
Record KeySet : Type := mkKeySet {
  keys : list Key
}.

Definition lt128_dec (n : N) : {(n < 128)%N} + {(128 <= n)%N}.
Proof.
  destruct (n <? 128)%N eqn:E.
  - left. apply N.ltb_lt. exact E.
  - right. apply N.ltb_ge. exact E.
Defined.

(** Base-128 variable-length integer, least significant group first. *)
Equations? varint (n : N) : bytes by wf (N.to_nat n) lt :=
  varint n with lt128_dec n := {
    | left _ := [byte_of_N n];
    | right _ := byte_of_N (128 + n mod 128) :: varint (n / 128) }.
Proof.
  assert (n / 128 < n)%N by (apply N.div_lt; lia). lia.
Qed.

Fixpoint decode_varint (bs : bytes) : option (N * bytes) :=
  match bs with
  | [] => None
  | b :: r =>
      let v := Byte.to_N b in
      if (v <? 128)%N then Some (v, r)
      else match decode_varint r with
           | Some (hi, r') => Some (v - 128 + 128 * hi, r')%N
           | None => None
           end
  end.

(** A length-delimited field: tag byte, payload length, payload. *)
Definition field (tag : byte) (payload : bytes) : bytes :=
  tag :: varint (N.of_nat (length payload)) ++ payload.

(** A scalar [bytes] field is left out when it holds the default (empty)
    value. *)
Definition bytes_field (tag : byte) (payload : bytes) : bytes :=
  match payload with
  | [] => []
  | _ :: _ => field tag payload
  end.

Definition TAG_1 : byte := x0a.
Definition TAG_2 : byte := x12.
Definition TAG_3 : byte := x1a.
Definition TAG_4 : byte := x22.

Definition Key_SerializeToString (k : Key) : bytes :=
  bytes_field TAG_1 (row k) ++ bytes_field TAG_2 (cf k)
  ++ bytes_field TAG_3 (cq k) ++ bytes_field TAG_4 (visibility k).

(** Modelled from the spec: the generated codec module [komorebi_pb2], which
    is not part of this module.  "encode(sequence of (row, family, qualifier,
    visibility) descriptors) -> bytes", over "a fixed binary schema" that
    "must support arbitrary-length byte fields for each of the four
    components"; here the length-delimited wire format with [keys] as
    repeated field 1 and the four byte fields numbered 1 to 4. *)
Definition SerializeToString (ks : KeySet) : bytes :=
  flat_map (fun k => field TAG_1 (Key_SerializeToString k)) (keys ks).

(** Cuts a message into its [(tag, payload)] fields.  Every field takes at
    least two bytes, so [length bs] units of fuel are always enough. *)
Fixpoint split_fields (fuel : nat) (bs : bytes) : option (list (byte * bytes)) :=
  match bs with
  | [] => Some []
  | tag :: r =>
      match fuel with
      | O => None
      | S fuel' =>
          match decode_varint r with
          | None => None
          | Some (len, r') =>
              let n := N.to_nat len in
              if length r' <? n then None
              else match split_fields fuel' (skipn n r') with
                   | Some fs => Some ((tag, firstn n r') :: fs)
                   | None => None
                   end
          end
      end
  end.

Definition parse_fields (bs : bytes) : option (list (byte * bytes)) :=
  split_fields (length bs) bs.

Definition Key_set_field (k : Key) (f : byte * bytes) : option Key :=
  let (tag, p) := f in
  if Byte.eqb tag TAG_1 then Some (mkKey p (cf k) (cq k) (visibility k))
  else if Byte.eqb tag TAG_2 then Some (mkKey (row k) p (cq k) (visibility k))
  else if Byte.eqb tag TAG_3 then Some (mkKey (row k) (cf k) p (visibility k))
  else if Byte.eqb tag TAG_4 then Some (mkKey (row k) (cf k) (cq k) p)
  else None.

Fixpoint Key_merge_fields (k : Key) (fs : list (byte * bytes)) : option Key :=
  match fs with
  | [] => Some k
  | f :: fs' =>
      match Key_set_field k f with
      | Some k' => Key_merge_fields k' fs'
      | None => None
      end
  end.

Definition Key_ParseFromString (bs : bytes) : option Key :=
  match parse_fields bs with
  | Some fs => Key_merge_fields (mkKey [] [] [] []) fs
  | None => None
  end.

Fixpoint KeySet_merge_fields (fs : list (byte * bytes)) : option (list Key) :=
  match fs with
  | [] => Some []
  | (tag, p) :: fs' =>
      if Byte.eqb tag TAG_1 then
        match Key_ParseFromString p with
        | Some k =>
            match KeySet_merge_fields fs' with
            | Some ks => Some (k :: ks)
            | None => None
            end
        | None => None
        end
      else None
  end.

(** Modelled from the spec: the decoding half of [komorebi_pb2]:
    "decode(bytes) -> sequence of descriptors, order-preserving"; "decode of
    bytes not produced by encode is permitted to fail but must not silently
    truncate or corrupt".  [None] stands for the decode error. *)
Definition ParseFromString (bs : bytes) : option KeySet :=
  match parse_fields bs with
  | Some fs =>
      match KeySet_merge_fields fs with
      | Some ks => Some (mkKeySet ks)
      | None => None
      end
  | None => None
  end.

(** A field as a [(tag, payload)] pair, and its bytes. *)
Definition frame (f : byte * bytes) : bytes := field (fst f) (snd f).

(** The fields a key descriptor puts on the wire. *)
Definition present (tag : byte) (p : bytes) : list (byte * bytes) :=
  match p with
  | [] => []
  | _ :: _ => [(tag, p)]
  end.

Definition Key_fields (k : Key) : list (byte * bytes) :=
  present TAG_1 (row k) ++ present TAG_2 (cf k)
  ++ present TAG_3 (cq k) ++ present TAG_4 (visibility k).

End komorebi_pb2.

(** ** Exceptions and random tokens *)

(** [DecodeError] is what the codec raises on an ill-formed blob (the
    malformed-manifest condition); [TypeError] is what Python raises when a
    [for] is given an object that offers no iteration. *)
Inductive exception : Type :=
| DecodeError
| TypeError.

Inductive result (A : Type) : Type :=
| Return (a : A)
| Raise (e : exception).
Arguments Return {A} a.
Arguments Raise {A} e.

Definition bind {A B : Type} (r : result A) (k : A -> result B) : result B :=
  match r with
  | Return a => k a
  | Raise e => Raise e
  end.

Notation "x <- r ;; k" := (bind r (fun x => k))
  (at level 61, r at next level, right associativity).

(** The process-wide random generator behind [uuid4().hex]: an unbounded
    supply of tokens and the number of tokens drawn so far. *)
Record rng : Type := mkRng {
  supply : nat -> str;
  drawn : nat
}.

Definition uuid4_hex (g : rng) : str * rng :=
  (supply g (drawn g), mkRng (supply g) (S (drawn g))).

Definition deserialize_pb_encoded_key_set (pb_encoded_key_set : bytes)
  : result komorebi_pb2.KeySet :=
  match komorebi_pb2.ParseFromString pb_encoded_key_set with
  | Some key_set => Return key_set
  | None => Raise DecodeError
  end.

(** ** View *)

Module View.

Record t : Type := mk {
  lookup_term : str;
  qualifier : str;
  visibility : str;
  family : T_ENCODABLE;
  value : T_ENCODABLE
}.

(** [View.__init__]: an omitted qualifier is drawn from the generator. *)
Definition init (g : rng) (lookup_term : str) (qualifier : option str)
    (visibility : str) (value family : T_ENCODABLE) : t * rng :=
  match qualifier with
  | None =>
      let (q, g') := uuid4_hex g in
      (mk lookup_term q visibility family value, g')
  | Some q => (mk lookup_term q visibility family value, g)
  end.

Definition mutation (self : t) (timestamp_ms : Z) : Mutation :=
  Mutation_put (Str (lookup_term self)) (family self) (Str (qualifier self))
               (Str (visibility self)) timestamp_ms (value self).

Definition pb_key_from_mutation (mutation : Mutation) : komorebi_pb2.Key :=
  komorebi_pb2.mkKey (row_bytes mutation) (cf_bytes mutation)
                     (cq_bytes mutation) (visibility_bytes mutation).

End View.

(** ** Component *)

Module Component.

Record t : Type := mk {
  doc_id : str;
  component_type : str;
  qualifier : str;
  visibility : str;
  content : T_ENCODABLE;
  views : list View.t
}.

(** [Component.__init__]: an omitted qualifier is drawn from the generator,
    omitted views become the empty list. *)
Definition init (g : rng) (doc_id component_type : str)
    (qualifier : option str) (visibility : str) (content : T_ENCODABLE)
    (views : option (list View.t)) : t * rng :=
  let (q, g') :=
    match qualifier with
    | None => uuid4_hex g
    | Some q => (q, g)
    end in
  let vs :=
    match views with
    | None => []
    | Some vs => vs
    end in
  (mk doc_id component_type q visibility content vs, g').

End Component.

(** ** Revisions *)

Module RevisionBase.

(** [RevisionBase.__init__]: [now_ms] is the clock reading
    [datetime_to_timestamp_ms(datetime.now(tz=timezone.utc))]. *)
Definition init (now_ms : Z) (timestamp_ms : option Z) : Z :=
  match timestamp_ms with
  | None => now_ms
  | Some ts => ts
  end.

End RevisionBase.

(** An element of the list returned by [Revision.mutations]: a mutation, or
    a list of mutations. *)
Inductive element : Type :=
| EMutation (m : Mutation)
| EList (l : list Mutation).

(** Every mutation an element holds. *)
Definition element_mutations (e : element) : list Mutation :=
  match e with
  | EMutation m => [m]
  | EList l => l
  end.

Module Revision.

Record t : Type := mk {
  components : list Component.t;
  timestamp_ms : Z
}.

Definition init (now_ms : Z) (components : list Component.t)
    (timestamp_ms : option Z) : t :=
  mk components (RevisionBase.init now_ms timestamp_ms).

Section Body.
Variable self : t.
Variable component : Component.t.

Definition component_mutation : Mutation :=
  Mutation_put (Str (Component.doc_id component))
               (Str (Component.component_type component))
               (Str (Component.qualifier component))
               (Str (Component.visibility component))
               (timestamp_ms self) (Component.content component).

Definition view_mutations : list Mutation :=
  map (fun view =>
         Mutation_put (Str (View.lookup_term view)) (View.family view)
                      (Str (View.qualifier view)) (Str (View.visibility view))
                      (timestamp_ms self) (View.value view))
      (Component.views component).

Definition view_keys : list komorebi_pb2.Key :=
  map (fun m => komorebi_pb2.mkKey (row_bytes m) (cf_bytes m) (cq_bytes m)
                                   (visibility_bytes m))
      view_mutations
  ++ [ komorebi_pb2.mkKey (row_bytes component_mutation)
                          (cf_bytes component_mutation)
                          (cq_bytes component_mutation)
                          (visibility_bytes component_mutation);
       komorebi_pb2.mkKey (row_bytes component_mutation)
                          (METADATA_COMPONENT_PREFIX_BYTES
                             ++ cf_bytes component_mutation)
                          (cq_bytes component_mutation)
                          (visibility_bytes component_mutation) ].

Definition view_key_set_pb_encoded : bytes :=
  komorebi_pb2.SerializeToString (komorebi_pb2.mkKeySet view_keys).

(** A one-element list, as in the source. *)
Definition component_metadata_mutation : list Mutation :=
  [ Mutation_put (Str (Component.doc_id component))
                 (Str (METADATA_COMPONENT_PREFIX
                         ++ Component.component_type component))
                 (Str (Component.qualifier component))
                 (Str (Component.visibility component))
                 (timestamp_ms self) (Bytes view_key_set_pb_encoded) ].

(** What one pass of the loop hands to [mutations.extend]. *)
Definition extension : list element :=
  map EMutation view_mutations
  ++ [EMutation component_mutation; EList component_metadata_mutation].
End Body.

Definition mutations (self : t) : list element :=
  fold_left (fun mutations component => mutations ++ extension self component)
            (components self) [].

End Revision.

(** What a call of [RevisionDelete.mutations] hands back. *)
Inductive retval : Type :=
| RNone
| RList (l : list Mutation).

Module RevisionDelete.

Record t : Type := mk {
  pb_encoded_key_sets : list bytes;
  timestamp_ms : Z
}.

Definition init (now_ms : Z) (pb_encoded_key_sets : list bytes)
    (timestamp_ms : option Z) : t :=
  mk pb_encoded_key_sets (RevisionBase.init now_ms timestamp_ms).

(** [for k in key_set]: the loop variable ranges over the decoded message
    object itself, not over its [keys] field.  [KeySet] is a generated
    message class (it is built as [KeySet(keys=view_keys)] in
    [Revision.mutations]) and a message object offers no iteration, so the
    [for] raises before any [k] is bound. *)
Definition iter_key_set (key_set : komorebi_pb2.KeySet)
  : result (list komorebi_pb2.Key) :=
  Raise TypeError.

(** The list comprehension handed to [delete_mutations.extend]. *)
Definition comprehension (self : t) (key_set : komorebi_pb2.KeySet)
  : result (list Mutation) :=
  ks <- iter_key_set key_set ;;
  Return (map (fun k => Mutation_delete (Bytes (komorebi_pb2.row k))
                                        (Bytes (komorebi_pb2.cf k))
                                        (Bytes (komorebi_pb2.cq k))
                                        (Bytes (komorebi_pb2.visibility k))
                                        (timestamp_ms self))
              ks).

(** The [for] loop, threading the local [delete_mutations]. *)
Fixpoint loop (self : t) (blobs : list bytes) (delete_mutations : list Mutation)
  : result (list Mutation) :=
  match blobs with
  | [] => Return delete_mutations
  | pb_encoded_key_set :: rest =>
      key_set <- deserialize_pb_encoded_key_set pb_encoded_key_set ;;
      extension <- comprehension self key_set ;;
      loop self rest (delete_mutations ++ extension)
  end.

(** The body ends after the loop, with no [return] statement: a call that
    gets through the loop yields [None]. *)
Definition mutations (self : t) : result retval :=
  _ <- loop self (pb_encoded_key_sets self) [] ;;
  Return RNone.

End RevisionDelete.

(** ** Collections as the constructors store them

    [Component.__init__] and [Revision.__init__] store whatever
    [Iterable] they are given, and every call of [Revision.mutations] runs a
    fresh [for] over it. *)

(** A sequence (list, tuple) starts over at each [for]; a one-shot iterator
    (generator, [iter(...)]) hands out what it has left, once. *)
Inductive iterable (A : Type) : Type :=
| Sequence (items : list A)
| OneShot (remaining : list A).
Arguments Sequence {A} items.
Arguments OneShot {A} remaining.

(** One [for] over the collection: what it yields, and the collection
    afterwards. *)
Definition iterate {A : Type} (it : iterable A) : list A * iterable A :=
  match it with
  | Sequence items => (items, Sequence items)
  | OneShot remaining => (remaining, OneShot [])
  end.

(** What the next [for] over the collection would yield. *)
Definition pending {A : Type} (it : iterable A) : list A :=
  match it with
  | Sequence items => items
  | OneShot remaining => remaining
  end.

Definition is_sequence {A : Type} (it : iterable A) : bool :=
  match it with
  | Sequence _ => true
  | OneShot _ => false
  end.

Module Obj.

(** A [Component] object with its [views] attribute as stored. *)
Record Component : Type := mkComponent {
  doc_id : str;
  component_type : str;
  qualifier : str;
  visibility : str;
  content : T_ENCODABLE;
  views : iterable View.t
}.

(** A [Revision] object with its [components] attribute as stored. *)
Record Revision : Type := mkRevision {
  components : iterable Component;
  timestamp_ms : Z
}.

(** The component as one pass of the loop sees it, its views being the
    ones the [for] over [component.views] yields. *)
Definition seen (c : Component) (vs : list View.t) : Component.t :=
  Component.mk (doc_id c) (component_type c) (qualifier c) (visibility c)
               (content c) vs.

(** One pass of the loop body: the elements it appends and the component
    object afterwards.  The body runs a single [for] over
    [component.views]. *)
Definition pass (ts : Z) (c : Component) : list element * Component :=
  let (vs, views') := iterate (views c) in
  (Revision.extension (Revision.mk [] ts) (seen c vs),
   mkComponent (doc_id c) (component_type c) (qualifier c) (visibility c)
               (content c) views').

(** The component object once its views have been looped over. *)
Definition after_pass (c : Component) : Component :=
  mkComponent (doc_id c) (component_type c) (qualifier c) (visibility c)
              (content c) (snd (iterate (views c))).

Fixpoint passes (ts : Z) (cs : list Component) (mutations : list element)
  : list element * list Component :=
  match cs with
  | [] => (mutations, [])
  | c :: rest =>
      let (ext, c') := pass ts c in
      let (out, rest') := passes ts rest (mutations ++ ext) in
      (out, c' :: rest')
  end.

(** One call of [Revision.mutations] on the object: the list it returns and
    the object afterwards. *)
Definition mutations (self : Revision) : list element * Revision :=
  let (out, cs') := passes (timestamp_ms self) (pending (components self)) [] in
  (out,
   mkRevision (match components self with
               | Sequence _ => Sequence cs'
               | OneShot _ => OneShot []
               end)
              (timestamp_ms self)).

(** The revision a call works on: the components and views the next [for]
    loops would yield. *)
Definition snapshot (self : Revision) : Revision.t :=
  Revision.mk (map (fun c => seen c (pending (views c)))
                   (pending (components self)))
              (timestamp_ms self).


End Obj.

(** ** Construction scripts

    The arguments a caller passes to the constructors, and the objects built
    from them in order (views of a component first, then the component). *)

Record ViewArgs : Type := mkViewArgs {
  va_lookup_term : str;
  va_qualifier : option str;
  va_visibility : str;
  va_value : T_ENCODABLE;
  va_family : T_ENCODABLE
}.

Record ComponentArgs : Type := mkComponentArgs {
  ca_doc_id : str;
  ca_component_type : str;
  ca_qualifier : option str;
  ca_visibility : str;
  ca_content : T_ENCODABLE;
  ca_views : option (list ViewArgs)
}.

Fixpoint build_views (g : rng) (args : list ViewArgs) : list View.t * rng :=
  match args with
  | [] => ([], g)
  | a :: rest =>
      let (v, g1) := View.init g (va_lookup_term a) (va_qualifier a)
                               (va_visibility a) (va_value a) (va_family a) in
      let (vs, g2) := build_views g1 rest in
      (v :: vs, g2)
  end.

Definition build_component (g : rng) (a : ComponentArgs) : Component.t * rng :=
  match ca_views a with
  | None =>
      Component.init g (ca_doc_id a) (ca_component_type a) (ca_qualifier a)
                     (ca_visibility a) (ca_content a) None
  | Some vargs =>
      let (vs, g1) := build_views g vargs in
      Component.init g1 (ca_doc_id a) (ca_component_type a) (ca_qualifier a)
                     (ca_visibility a) (ca_content a) (Some vs)
  end.

Fixpoint build_components (g : rng) (args : list ComponentArgs)
  : list Component.t * rng :=
  match args with
  | [] => ([], g)
  | a :: rest =>
      let (c, g1) := build_component g a in
      let (cs, g2) := build_components g1 rest in
      (c :: cs, g2)
  end.

Definition is_some {A : Type} (o : option A) : bool :=
  match o with
  | Some _ => true
  | None => false
  end.

Definition explicit_view (a : ViewArgs) : bool := is_some (va_qualifier a).

Definition explicit_component (a : ComponentArgs) : bool :=
  is_some (ca_qualifier a)
  && match ca_views a with
     | None => true
     | Some vargs => forallb explicit_view vargs
     end.

(** ** A worked example

    Component [doc_id="d1", component_type="text", qualifier="q1",
    content=b"hello"] with one view [lookup_term="hello", qualifier="v1",
    family="idx"]. *)

Definition ex_view : View.t :=
  View.mk [104; 101; 108; 108; 111]%N [118; 49]%N [] (Str [105; 100; 120]%N)
          (Bytes []).

Definition ex_component : Component.t :=
  Component.mk [100; 49]%N [116; 101; 120; 116]%N [113; 49]%N []
               (Bytes [x68; x65; x6c; x6c; x6f]) [ex_view].

Definition ex_revision : Revision.t := Revision.mk [ex_component] 1000.

Definition ex_manifest : bytes :=
  Revision.view_key_set_pb_encoded ex_revision ex_component.

Definition ex_delete : RevisionDelete.t := RevisionDelete.mk [ex_manifest] 2000.




(** ** Derived notions used in the statements *)

(** The sequence of mutations of one component: views, body, metadata. *)
Definition component_sequence (self : Revision.t) (c : Component.t)
  : list Mutation :=
  Revision.view_mutations self c
  ++ [Revision.component_mutation self c]
  ++ Revision.component_metadata_mutation self c.

(** A blob the codec refuses. *)
Definition ill_formed (blob : bytes) : Prop :=
  komorebi_pb2.ParseFromString blob = None.

(** Two generators that hand out different tokens. *)
Definition ex_rng_a : rng := mkRng (fun n => [N.of_nat n + 97])%N 0.
Definition ex_rng_b : rng := mkRng (fun n => [N.of_nat n + 65])%N 7.

Definition ex_args : list ComponentArgs :=
  [ mkComponentArgs [100; 49]%N [116; 101; 120; 116]%N (Some [113; 49]%N) []
      (Bytes [x68; x65; x6c; x6c; x6f])
      (Some [ mkViewArgs [104; 101; 108; 108; 111]%N (Some [118; 49]%N) []
                (Bytes []) (Str [105; 100; 120]%N) ]) ].

(** The manifests a revision stores: the value of each component's metadata
    mutation, in component order. *)
Definition stored_manifests (self : Revision.t) : list bytes :=
  map (Revision.view_key_set_pb_encoded self) (Revision.components self).

(** A view with its payload emptied and its family given as bytes. *)
Definition strip_view (v : View.t) : View.t :=
  View.mk (View.lookup_term v) (View.qualifier v) (View.visibility v)
          (Bytes (encode (View.family v))) (Bytes []).

(** A component with every payload emptied. *)
Definition strip_payload (c : Component.t) : Component.t :=
  Component.mk (Component.doc_id c) (Component.component_type c)
               (Component.qualifier c) (Component.visibility c) (Bytes [])
               (map strip_view (Component.views c)).

(** The component that differs from [c] only by carrying the reserved prefix
    in front of its type. *)
Definition prefixed_type (c : Component.t) : Component.t :=
  Component.mk (Component.doc_id c)
               (METADATA_COMPONENT_PREFIX ++ Component.component_type c)
               (Component.qualifier c) (Component.visibility c)
               (Component.content c) (Component.views c).

(** The shape of an element of a revision's output: a put, or a list holding
    one put. *)
Definition put_shape (e : element) : Prop :=
  match e with
  | EMutation m => delete m = false
  | EList l => exists m, l = [m] /\ delete m = false
  end.

Definition omitted_view (a : ViewArgs) : bool := negb (is_some (va_qualifier a)).

(** * Properties *)

(** ** The codec *)

Module Codec.
Import komorebi_pb2.

Lemma to_N_byte_of_N (n : N) : (n < 256)%N -> Byte.to_N (byte_of_N n) = n.
Proof.
  intros Hn. unfold byte_of_N.
  destruct (Byte.of_N n) as [b|] eqn:E.
  - apply Byte.to_of_N. exact E.
  - apply Byte.of_N_None_iff in E. lia.
Qed.

Lemma decode_varint_varint (n : N) (rest : bytes) :
  decode_varint (varint n ++ rest) = Some (n, rest).
Proof.
  funelim (varint n); cbn [app decode_varint].
  - rewrite to_N_byte_of_N by lia.
    assert (Hlt : (n <? 128)%N = true) by (apply N.ltb_lt; lia).
    rewrite Hlt. reflexivity.
  - assert (Hm : (n mod 128 < 128)%N) by (apply N.mod_lt; lia).
    rewrite to_N_byte_of_N by lia.
    assert (Hge : (128 + n mod 128 <? 128)%N = false) by (apply N.ltb_ge; apply N.le_add_r).
    rewrite Hge, H.
    f_equal. f_equal.
    pose proof (N.div_mod n 128 ltac:(discriminate)) as Hdm.
    set (q := (n / 128)%N) in *. set (r := (n mod 128)%N) in *.
    clearbody q r. clear - Hdm. lia.
Qed.

Lemma decode_varint_shorter (bs rest : bytes) (n : N) :
  decode_varint bs = Some (n, rest) -> length rest < length bs.
Proof.
  revert n rest. induction bs as [|b r IH]; intros n rest; simpl.
  - discriminate.
  - destruct (Byte.to_N b <? 128)%N.
    + intros [= _ <-]. lia.
    + destruct (decode_varint r) as [[hi r']|]; [|discriminate].
      intros [= _ <-]. specialize (IH _ _ eq_refl). lia.
Qed.

(** The fuel of [split_fields] never decides the outcome once it covers the
    input. *)
Lemma split_fields_fuel (f1 f2 : nat) (bs : bytes) :
  length bs <= f1 -> length bs <= f2 -> split_fields f1 bs = split_fields f2 bs.
Proof.
  revert f2 bs. induction f1 as [|f1 IH]; intros f2 bs H1 H2.
  - destruct bs; [destruct f2; reflexivity | simpl in H1; lia].
  - destruct bs as [|tag r]; [destruct f2; reflexivity|].
    destruct f2 as [|f2]; [simpl in H2; lia|].
    simpl in *.
    destruct (decode_varint r) as [[len r']|] eqn:E; [|reflexivity].
    apply decode_varint_shorter in E.
    destruct (length r' <? N.to_nat len); [reflexivity|].
    rewrite (IH f2); [reflexivity | |];
      rewrite length_skipn; lia.
Qed.

Lemma split_fields_field (fuel : nat) (tag : byte) (p rest : bytes) :
  split_fields (S fuel) (field tag p ++ rest)
  = match split_fields fuel rest with
    | Some fs => Some ((tag, p) :: fs)
    | None => None
    end.
Proof.
  unfold field. cbn [app split_fields].
  rewrite <- app_assoc, decode_varint_varint, Nat2N.id.
  assert (Hlen : (length (p ++ rest) <? length p) = false).
  { apply Nat.ltb_ge. rewrite length_app. lia. }
  rewrite Hlen, skipn_app, skipn_all, Nat.sub_diag, firstn_app, firstn_all,
    Nat.sub_diag.
  cbn [skipn firstn app]. rewrite app_nil_r. reflexivity.
Qed.

Lemma split_fields_frames (fs : list (byte * bytes)) (fuel : nat) :
  length fs <= fuel -> split_fields fuel (flat_map frame fs) = Some fs.
Proof.
  revert fuel. induction fs as [|[tag p] fs IH]; intros fuel Hf.
  - destruct fuel; reflexivity.
  - destruct fuel as [|fuel]; [simpl in Hf; lia|].
    cbn [flat_map]. unfold frame at 1. cbn [fst snd].
    rewrite split_fields_field.
    rewrite IH by (simpl in Hf; lia). reflexivity.
Qed.

Lemma length_frames (fs : list (byte * bytes)) :
  length fs <= length (flat_map frame fs).
Proof.
  induction fs as [|[tag p] fs IH]; simpl; [lia|].
  rewrite length_app. lia.
Qed.

Lemma parse_fields_frames (fs : list (byte * bytes)) :
  parse_fields (flat_map frame fs) = Some fs.
Proof.
  unfold parse_fields. apply split_fields_frames, length_frames.
Qed.

Lemma bytes_field_present (tag : byte) (p : bytes) :
  bytes_field tag p = flat_map frame (present tag p).
Proof.
  destruct p; [reflexivity|]. cbn [bytes_field present flat_map].
  rewrite app_nil_r. reflexivity.
Qed.

Lemma Key_SerializeToString_frames (k : Key) :
  Key_SerializeToString k = flat_map frame (Key_fields k).
Proof.
  unfold Key_SerializeToString, Key_fields.
  rewrite !flat_map_app, !bytes_field_present. reflexivity.
Qed.

Lemma Key_merge_fields_Key_fields (k : Key) :
  Key_merge_fields (mkKey [] [] [] []) (Key_fields k) = Some k.
Proof.
  destruct k as [[|r0 r] [|f0 f] [|q0 q] [|v0 v]]; reflexivity.
Qed.

Lemma Key_roundtrip (k : Key) :
  Key_ParseFromString (Key_SerializeToString k) = Some k.
Proof.
  unfold Key_ParseFromString.
  rewrite Key_SerializeToString_frames, parse_fields_frames.
  apply Key_merge_fields_Key_fields.
Qed.

Lemma SerializeToString_frames (ks : KeySet) :
  SerializeToString ks
  = flat_map frame (map (fun k => (TAG_1, Key_SerializeToString k)) (keys ks)).
Proof.
  unfold SerializeToString. induction (keys ks) as [|k l IH]; [reflexivity|].
  cbn [flat_map map]. rewrite IH. reflexivity.
Qed.

Lemma KeySet_merge_fields_keys (l : list Key) :
  KeySet_merge_fields (map (fun k => (TAG_1, Key_SerializeToString k)) l)
  = Some l.
Proof.
  induction l as [|k l IH]; [reflexivity|].
  cbn [map KeySet_merge_fields]. rewrite Key_roundtrip, IH. reflexivity.
Qed.

Lemma ParseFromString_SerializeToString (ks : KeySet) :
  ParseFromString (SerializeToString ks) = Some ks.
Proof.
  unfold ParseFromString.
  rewrite SerializeToString_frames, parse_fields_frames,
    KeySet_merge_fields_keys.
  destruct ks; reflexivity.
Qed.

End Codec.

(** ** Text encoding *)

Lemma str_encode_app (a b : str) :
  str_encode (a ++ b) = str_encode a ++ str_encode b.
Proof. unfold str_encode. apply flat_map_app. Qed.

Lemma metadata_family_bytes (component_type : str) :
  encode (Str (METADATA_COMPONENT_PREFIX ++ component_type))
  = METADATA_COMPONENT_PREFIX_BYTES ++ encode (Str component_type).
Proof. cbn [encode]. apply str_encode_app. Qed.

(** ** The Revision compiler *)

Lemma fold_extend {A B : Type} (f : A -> list B) (l : list A) (acc : list B) :
  fold_left (fun out a => out ++ f a) l acc = acc ++ flat_map f l.
Proof.
  revert acc. induction l as [|a l IH]; intros acc; simpl.
  - symmetry. apply app_nil_r.
  - rewrite IH, app_assoc. reflexivity.
Qed.

(** The returned list is the concatenation, in component order, of what each
    pass of the loop appends. *)
Lemma Revision_mutations_flat_map (self : Revision.t) :
  Revision.mutations self
  = flat_map (Revision.extension self) (Revision.components self).
Proof. unfold Revision.mutations. rewrite fold_extend. reflexivity. Qed.

Lemma extension_mutations (self : Revision.t) (c : Component.t) :
  flat_map element_mutations (Revision.extension self c)
  = component_sequence self c.
Proof.
  unfold Revision.extension, component_sequence.
  rewrite flat_map_app.
  assert (Hv : forall l, flat_map element_mutations (map EMutation l) = l).
  { induction l as [|m l IH]; simpl; [reflexivity | rewrite IH; reflexivity]. }
  rewrite Hv. reflexivity.
Qed.

(** Read through the nesting, the output lists every component's mutations
    in input order: views, then body, then metadata. *)
Lemma Revision_mutations_contents (self : Revision.t) :
  flat_map element_mutations (Revision.mutations self)
  = flat_map (component_sequence self) (Revision.components self).
Proof.
  rewrite Revision_mutations_flat_map.
  induction (Revision.components self) as [|c l IH]; simpl; [reflexivity|].
  rewrite flat_map_app, IH, extension_mutations. reflexivity.
Qed.

Lemma view_mutations_method (self : Revision.t) (c : Component.t) :
  Revision.view_mutations self c
  = map (fun view => View.mutation view (Revision.timestamp_ms self))
        (Component.views c).
Proof. reflexivity. Qed.

Lemma metadata_in_output (self : Revision.t) (c : Component.t) :
  In c (Revision.components self) ->
  In (EList (Revision.component_metadata_mutation self c))
     (Revision.mutations self).
Proof.
  intros Hc. rewrite Revision_mutations_flat_map.
  apply in_flat_map. exists c. split; [exact Hc|].
  unfold Revision.extension. apply in_or_app. right. simpl. auto.
Qed.

Lemma component_sequence_timestamps (self : Revision.t) (c : Component.t) :
  Forall (fun m => timestamp m = Revision.timestamp_ms self)
         (component_sequence self c).
Proof.
  unfold component_sequence. apply Forall_app. split.
  - unfold Revision.view_mutations. apply Forall_map.
    apply Forall_forall. intros v _. reflexivity.
  - repeat constructor.
Qed.

(** C4, evaluated on the code: the list returned for a revision with at
    least one component is not a flat sequence of mutations.  The metadata
    mutation is handed to [extend] wrapped in its own one-element list, so
    the last element appended for each component is a list. *)
Theorem Revision_mutations_not_flat (self : Revision.t) :
  Revision.components self <> [] ->
  ~ exists ms : list Mutation, Revision.mutations self = map EMutation ms.
Proof.
  intros Hne [ms Hms].
  destruct (Revision.components self) as [|c l] eqn:Hc; [congruence|].
  assert (Hin : In (EList (Revision.component_metadata_mutation self c))
                   (Revision.mutations self)).
  { apply metadata_in_output. rewrite Hc. left. reflexivity. }
  rewrite Hms in Hin. apply in_map_iff in Hin.
  destruct Hin as [m [Hm _]]. discriminate.
Qed.

Lemma Revision_mutations_not_flat_witness :
  Revision.components ex_revision <> []
  /\ ~ exists ms : list Mutation,
         Revision.mutations ex_revision = map EMutation ms.
Proof.
  split; [discriminate | apply Revision_mutations_not_flat; discriminate].
Defined.

(** C5 (timestamp sharing): every mutation in the output of
    [Revision.mutations], whether it stands directly in the list or inside a
    nested one, carries the revision's [timestamp_ms].  Holds for every
    revision, in particular for those with at least one component. *)
Theorem Revision_timestamp_sharing (self : Revision.t) :
  Forall (fun m => timestamp m = Revision.timestamp_ms self)
         (flat_map element_mutations (Revision.mutations self)).
Proof.
  rewrite Revision_mutations_contents.
  induction (Revision.components self) as [|c l IH]; simpl.
  - constructor.
  - apply Forall_app. split; [apply component_sequence_timestamps | exact IH].
Qed.

(** C6: for a component of a revision, the metadata mutation in the output
    has row [doc_id], family the reserved prefix followed by
    [component_type], the qualifier of the component-body mutation, the
    component's visibility, the revision timestamp, and the serialized
    manifest as its value. *)
Theorem metadata_mutation_fields (self : Revision.t) (c : Component.t) :
  In c (Revision.components self) ->
  exists m : Mutation,
    Revision.component_metadata_mutation self c = [m]
    /\ In (EList [m]) (Revision.mutations self)
    /\ row m = Str (Component.doc_id c)
    /\ cf m = Str (METADATA_COMPONENT_PREFIX ++ Component.component_type c)
    /\ cq m = cq (Revision.component_mutation self c)
    /\ cq m = Str (Component.qualifier c)
    /\ visibility m = Str (Component.visibility c)
    /\ timestamp m = Revision.timestamp_ms self
    /\ value m = Bytes (komorebi_pb2.SerializeToString
                          (komorebi_pb2.mkKeySet (Revision.view_keys self c)))
    /\ delete m = false.
Proof.
  intros Hc. eexists. split; [reflexivity|].
  split; [apply (metadata_in_output self c Hc)|].
  repeat split.
Qed.

Lemma metadata_mutation_fields_witness :
  In ex_component (Revision.components ex_revision)
  /\ exists m : Mutation,
       Revision.component_metadata_mutation ex_revision ex_component = [m]
       /\ In (EList [m]) (Revision.mutations ex_revision)
       /\ row m = Str (Component.doc_id ex_component)
       /\ cf m = Str (METADATA_COMPONENT_PREFIX
                        ++ Component.component_type ex_component)
       /\ cq m = cq (Revision.component_mutation ex_revision ex_component)
       /\ cq m = Str (Component.qualifier ex_component)
       /\ visibility m = Str (Component.visibility ex_component)
       /\ timestamp m = Revision.timestamp_ms ex_revision
       /\ value m = Bytes (komorebi_pb2.SerializeToString
                             (komorebi_pb2.mkKeySet
                                (Revision.view_keys ex_revision ex_component)))
       /\ delete m = false.
Proof.
  assert (Hin : In ex_component (Revision.components ex_revision))
    by (left; reflexivity).
  split; [exact Hin | exact (metadata_mutation_fields ex_revision ex_component Hin)].
Defined.

(** ** Manifests *)

(** The manifest lists the key of every mutation written for the component,
    the metadata mutation included. *)
Lemma view_keys_component_sequence (self : Revision.t) (c : Component.t) :
  Revision.view_keys self c
  = map View.pb_key_from_mutation (component_sequence self c).
Proof.
  unfold Revision.view_keys, component_sequence.
  rewrite map_app. f_equal.
Qed.

Lemma deserialize_serialized (ks : komorebi_pb2.KeySet) :
  deserialize_pb_encoded_key_set (komorebi_pb2.SerializeToString ks) = Return ks.
Proof.
  unfold deserialize_pb_encoded_key_set.
  rewrite Codec.ParseFromString_SerializeToString. reflexivity.
Qed.

Lemma deserialize_manifest (self : Revision.t) (c : Component.t) :
  deserialize_pb_encoded_key_set (Revision.view_key_set_pb_encoded self c)
  = Return (komorebi_pb2.mkKeySet
              (map View.pb_key_from_mutation (component_sequence self c))).
Proof.
  unfold Revision.view_key_set_pb_encoded.
  rewrite deserialize_serialized, view_keys_component_sequence. reflexivity.
Qed.

(** C8 (codec round trip): decoding the bytes produced by encoding a
    sequence of key descriptors succeeds and yields that same sequence, in
    the same order. *)
Theorem keyset_codec_roundtrip (S : list komorebi_pb2.Key) :
  deserialize_pb_encoded_key_set
    (komorebi_pb2.SerializeToString (komorebi_pb2.mkKeySet S))
  = Return (komorebi_pb2.mkKeySet S)
  /\ option_map komorebi_pb2.keys
       (komorebi_pb2.ParseFromString
          (komorebi_pb2.SerializeToString (komorebi_pb2.mkKeySet S)))
     = Some S.
Proof.
  split.
  - apply deserialize_serialized.
  - rewrite Codec.ParseFromString_SerializeToString. reflexivity.
Qed.

(** C3 (manifest completeness): the value of a component's metadata
    mutation decodes to exactly [k + 2] key descriptors for a component with
    [k] views: the view keys in view order, then the component-body key,
    then the key of the metadata mutation itself. *)
Theorem manifest_completeness (self : Revision.t) (c : Component.t) :
  exists (m : Mutation) (blob : bytes),
    Revision.component_metadata_mutation self c = [m]
    /\ value m = Bytes blob
    /\ deserialize_pb_encoded_key_set blob
       = Return (komorebi_pb2.mkKeySet
                   (map View.pb_key_from_mutation (Revision.view_mutations self c)
                    ++ [ View.pb_key_from_mutation
                           (Revision.component_mutation self c);
                         View.pb_key_from_mutation m ]))
    /\ length (map View.pb_key_from_mutation (Revision.view_mutations self c)
               ++ [ View.pb_key_from_mutation
                      (Revision.component_mutation self c);
                    View.pb_key_from_mutation m ])
       = length (Component.views c) + 2.
Proof.
  eexists. eexists. split; [reflexivity|]. split; [reflexivity|]. split.
  - rewrite deserialize_manifest. unfold component_sequence.
    rewrite map_app. reflexivity.
  - rewrite length_app, length_map. unfold Revision.view_mutations.
    rewrite length_map. reflexivity.
Qed.

(** C10: a component constructed without views has the empty view list; the
    loop then appends no view mutation for it, only the body mutation and
    the metadata mutation, whose manifest decodes to the two descriptors of
    the body key and the metadata key. *)
Theorem component_without_views (g : rng) (doc_id component_type : str)
    (qualifier : option str) (visibility : str) (content : T_ENCODABLE)
    (ts : Z) :
  let c := fst (Component.init g doc_id component_type qualifier visibility
                               content None) in
  let self := Revision.mk [c] ts in
  Component.views c = []
  /\ Revision.view_mutations self c = []
  /\ exists (m : Mutation) (blob : bytes),
       Revision.mutations self
       = [EMutation (Revision.component_mutation self c); EList [m]]
       /\ value m = Bytes blob
       /\ deserialize_pb_encoded_key_set blob
          = Return (komorebi_pb2.mkKeySet
                      [ View.pb_key_from_mutation
                          (Revision.component_mutation self c);
                        View.pb_key_from_mutation m ]).
Proof.
  intros c self.
  assert (Hv : Component.views c = []).
  { unfold c, Component.init. destruct qualifier; [|destruct (uuid4_hex g)];
      reflexivity. }
  assert (Hvm : Revision.view_mutations self c = []).
  { unfold Revision.view_mutations. rewrite Hv. reflexivity. }
  split; [exact Hv|]. split; [exact Hvm|].
  exists (mkMutation (Str doc_id) (Str (METADATA_COMPONENT_PREFIX ++ component_type))
                     (Str (Component.qualifier c)) (Str visibility) ts
                     (Bytes (Revision.view_key_set_pb_encoded self c)) false).
  exists (Revision.view_key_set_pb_encoded self c).
  assert (Hm : Revision.component_metadata_mutation self c
               = [mkMutation (Str doc_id)
                             (Str (METADATA_COMPONENT_PREFIX ++ component_type))
                             (Str (Component.qualifier c)) (Str visibility) ts
                             (Bytes (Revision.view_key_set_pb_encoded self c))
                             false]).
  { unfold c, Component.init. destruct qualifier; [|destruct (uuid4_hex g)];
      reflexivity. }
  split; [|split; [reflexivity|]].
  - rewrite Revision_mutations_flat_map.
    cbn [flat_map Revision.components self]. rewrite app_nil_r.
    unfold Revision.extension. fold self. rewrite Hvm, Hm. reflexivity.
  - rewrite deserialize_manifest. unfold component_sequence.
    rewrite Hvm, Hm. reflexivity.
Qed.

(** ** The RevisionDelete compiler *)

Lemma deserialize_ill_formed (blob : bytes) :
  ill_formed blob -> deserialize_pb_encoded_key_set blob = Raise DecodeError.
Proof.
  unfold ill_formed, deserialize_pb_encoded_key_set. intros ->. reflexivity.
Qed.

(** A first blob that does not decode ends the loop with the decode error. *)
Lemma loop_first_ill_formed (self : RevisionDelete.t) (blob : bytes)
    (rest : list bytes) (acc : list Mutation) :
  ill_formed blob ->
  RevisionDelete.loop self (blob :: rest) acc = Raise DecodeError.
Proof.
  intros H. cbn [RevisionDelete.loop].
  rewrite (deserialize_ill_formed H). reflexivity.
Qed.

(** A first blob that decodes ends the loop with [TypeError]: the [for]
    over the decoded message raises, and no later blob is looked at. *)
Lemma loop_first_decodable (self : RevisionDelete.t) (blob : bytes)
    (rest : list bytes) (acc : list Mutation) (key_set : komorebi_pb2.KeySet) :
  deserialize_pb_encoded_key_set blob = Return key_set ->
  RevisionDelete.loop self (blob :: rest) acc = Raise TypeError.
Proof.
  intros H. cbn [RevisionDelete.loop]. rewrite H. reflexivity.
Qed.

Lemma loop_nonempty_raises (self : RevisionDelete.t) (blob : bytes)
    (rest : list bytes) (acc : list Mutation) :
  exists e, RevisionDelete.loop self (blob :: rest) acc = Raise e.
Proof.
  destruct (deserialize_pb_encoded_key_set blob) as [ks|e] eqn:E.
  - exists TypeError. apply (@loop_first_decodable self blob rest acc ks E).
  - exists e. cbn [RevisionDelete.loop]. rewrite E. reflexivity.
Qed.

Lemma mutations_manifest_first (self : Revision.t) (c : Component.t)
    (rest : list bytes) (ts : Z) :
  RevisionDelete.mutations
    (RevisionDelete.mk (Revision.view_key_set_pb_encoded self c :: rest) ts)
  = Raise TypeError.
Proof.
  unfold RevisionDelete.mutations. cbn [RevisionDelete.pb_encoded_key_sets].
  rewrite (@loop_first_decodable _ _ rest [] _ (deserialize_manifest self c)).
  reflexivity.
Qed.

(** C7, evaluated on the code: when a stored manifest comes first in the
    input, the call raises [TypeError] at that blob, and an ill-formed blob
    further on is never decoded, so the decode error is not what the caller
    sees.  The call does abort and returns nothing. *)
Theorem RevisionDelete_TypeError_before_ill_formed (self : Revision.t)
    (c : Component.t) (rest : list bytes) (ts : Z) :
  Exists ill_formed rest ->
  RevisionDelete.mutations
    (RevisionDelete.mk (Revision.view_key_set_pb_encoded self c :: rest) ts)
  = Raise TypeError
  /\ RevisionDelete.mutations
       (RevisionDelete.mk (Revision.view_key_set_pb_encoded self c :: rest) ts)
     <> Raise DecodeError.
Proof.
  intros _. rewrite mutations_manifest_first. split; [reflexivity | discriminate].
Qed.

Lemma RevisionDelete_TypeError_before_ill_formed_witness :
  Exists ill_formed [[x0a; x05]]
  /\ RevisionDelete.mutations (RevisionDelete.mk [ex_manifest; [x0a; x05]] 2000)
     = Raise TypeError
  /\ RevisionDelete.mutations (RevisionDelete.mk [ex_manifest; [x0a; x05]] 2000)
     <> Raise DecodeError.
Proof.
  assert (Hex : Exists ill_formed [[x0a; x05]]) by (left; reflexivity).
  split; [exact Hex|].
  exact (RevisionDelete_TypeError_before_ill_formed
           ex_revision ex_component 2000 Hex).
Defined.

(** C2, evaluated on the code: no call of [RevisionDelete.mutations] hands
    back a sequence.  The body has no [return] statement, and a call given
    any blob does not even reach its end. *)
Theorem RevisionDelete_mutations_never_a_sequence (self : RevisionDelete.t)
    (l : list Mutation) :
  RevisionDelete.mutations self <> Return (RList l).
Proof.
  unfold RevisionDelete.mutations.
  destruct (RevisionDelete.loop self (RevisionDelete.pb_encoded_key_sets self) []);
    cbn [bind]; discriminate.
Qed.

(** C1, evaluated on the code: a [RevisionDelete] built from the manifest a
    revision stored for a component decodes it and then raises [TypeError]
    at the [for] over the decoded message; the caller receives no delete
    markers. *)
Theorem RevisionDelete_of_manifest_raises_TypeError (self : Revision.t)
    (c : Component.t) (ts : Z) :
  RevisionDelete.mutations
    (RevisionDelete.mk [Revision.view_key_set_pb_encoded self c] ts)
  = Raise TypeError.
Proof. apply mutations_manifest_first. Qed.

(** ** Determinism *)

Lemma build_views_explicit (args : list ViewArgs) :
  forallb explicit_view args = true ->
  forall g1 g2,
    fst (build_views g1 args) = fst (build_views g2 args)
    /\ snd (build_views g1 args) = g1.
Proof.
  induction args as [|a rest IH]; intros Hex g1 g2; [split; reflexivity|].
  cbn [forallb] in Hex. apply andb_true_iff in Hex as [Ha Hrest].
  unfold explicit_view in Ha.
  cbn [build_views]. unfold View.init.
  destruct (va_qualifier a) as [q|]; [|discriminate].
  destruct (IH Hrest g1 g2) as [IH1 IH2].
  destruct (build_views g1 rest) as [vs1 g1'].
  destruct (build_views g2 rest) as [vs2 g2'].
  cbn [fst snd] in *. subst. split; reflexivity.
Qed.

Lemma build_component_explicit (a : ComponentArgs) :
  explicit_component a = true ->
  forall g1 g2,
    fst (build_component g1 a) = fst (build_component g2 a)
    /\ snd (build_component g1 a) = g1.
Proof.
  unfold explicit_component, build_component, Component.init.
  intros Hex g1 g2. apply andb_true_iff in Hex as [Hq Hv].
  destruct (ca_qualifier a) as [q|]; [|discriminate].
  destruct (ca_views a) as [vargs|]; [|split; reflexivity].
  destruct (build_views_explicit vargs Hv g1 g2) as [H1 H2].
  destruct (build_views g1 vargs) as [vs1 g1'].
  destruct (build_views g2 vargs) as [vs2 g2'].
  cbn [fst snd] in *. subst. split; reflexivity.
Qed.

Lemma build_components_explicit (args : list ComponentArgs) :
  forallb explicit_component args = true ->
  forall g1 g2,
    fst (build_components g1 args) = fst (build_components g2 args)
    /\ snd (build_components g1 args) = g1.
Proof.
  induction args as [|a rest IH]; intros Hex g1 g2; [split; reflexivity|].
  cbn [forallb] in Hex. apply andb_true_iff in Hex as [Ha Hrest].
  cbn [build_components].
  destruct (build_component_explicit a Ha g1 g2) as [Hc1 Hg1].
  destruct (build_component_explicit a Ha g2 g1) as [_ Hg2].
  destruct (build_component g1 a) as [c1 g1'].
  destruct (build_component g2 a) as [c2 g2'].
  cbn [fst snd] in *. subst.
  destruct (IH Hrest g1 g2) as [IH1 IH2].
  destruct (build_components g1 rest) as [cs1 g1'].
  destruct (build_components g2 rest) as [cs2 g2'].
  cbn [fst snd] in *. subst. split; reflexivity.
Qed.

(** When every component and view is given an explicit qualifier, the
    constructors draw nothing from the random generator: the objects built
    from the same arguments, and the lists compiled from them, are the same
    whatever the generator's state. *)
Lemma constructors_ignore_generator (now_ms : Z) (g1 g2 : rng)
    (args : list ComponentArgs) (timestamp_ms : option Z) :
  forallb explicit_component args = true ->
  Revision.mutations
    (Revision.init now_ms (fst (build_components g1 args)) timestamp_ms)
  = Revision.mutations
      (Revision.init now_ms (fst (build_components g2 args)) timestamp_ms).
Proof.
  intros Hex.
  destruct (build_components_explicit args Hex g1 g2) as [-> _].
  reflexivity.
Qed.

Example ex_args_ignore_generator :
  Revision.mutations
    (Revision.init 5 (fst (build_components ex_rng_a ex_args)) (Some 1000%Z))
  = Revision.mutations
      (Revision.init 5 (fst (build_components ex_rng_b ex_args)) (Some 1000%Z)).
Proof. apply constructors_ignore_generator. reflexivity. Qed.

(** With a qualifier left out the output does depend on the generator. *)
Example omitted_qualifier_depends_on_rng :
  Revision.mutations
    (Revision.init 5
       (fst (build_components ex_rng_a
               [mkComponentArgs [100; 49]%N [116]%N None [] (Bytes []) None]))
       (Some 1000%Z))
  <> Revision.mutations
       (Revision.init 5
          (fst (build_components ex_rng_b
                  [mkComponentArgs [100; 49]%N [116]%N None [] (Bytes []) None]))
          (Some 1000%Z)).
Proof. vm_compute. discriminate. Qed.

(** ** Calling [mutations] twice on one object *)

Lemma iterate_pending {A : Type} (it : iterable A) :
  fst (iterate it) = pending it.
Proof. destruct it; reflexivity. Qed.

Lemma iterate_sequence {A : Type} (it : iterable A) :
  is_sequence it = true -> snd (iterate it) = it.
Proof. destruct it; [reflexivity | discriminate]. Qed.

Lemma pass_output (ts : Z) (c : Obj.Component) :
  fst (Obj.pass ts c)
  = Revision.extension (Revision.mk [] ts)
                       (Obj.seen c (pending (Obj.views c))).
Proof.
  unfold Obj.pass. destruct (Obj.views c); reflexivity.
Qed.


Lemma passes_output (ts : Z) (cs : list Obj.Component) (acc : list element) :
  fst (Obj.passes ts cs acc)
  = acc ++ flat_map (fun c => Revision.extension
                                (Revision.mk [] ts)
                                (Obj.seen c (pending (Obj.views c)))) cs.
Proof.
  revert acc. induction cs as [|c cs IH]; intros acc; cbn [Obj.passes flat_map].
  - symmetry. apply app_nil_r.
  - pose proof (pass_output ts c) as Hp.
    destruct (Obj.pass ts c) as [ext c']. cbn [fst] in Hp. subst ext.
    specialize (IH (acc ++ Revision.extension
                            (Revision.mk [] ts)
                            (Obj.seen c (pending (Obj.views c))))).
    destruct (Obj.passes ts cs _) as [out rest']. cbn [fst] in *.
    rewrite IH, app_assoc. reflexivity.
Qed.




Lemma call_exhausts_generator (cs : list Obj.Component) (ts : Z) :
  snd (Obj.mutations (Obj.mkRevision (OneShot cs) ts))
  = Obj.mkRevision (OneShot []) ts.
Proof.
  unfold Obj.mutations. cbn [Obj.components Obj.timestamp_ms pending].
  destruct (Obj.passes ts cs []). reflexivity.
Qed.




(** ** The worked example, evaluated *)

Example ex_revision_shape :
  exists view_m body_m meta_m,
    Revision.mutations ex_revision
    = [EMutation view_m; EMutation body_m; EList [meta_m]]
    /\ row view_m = Str [104; 101; 108; 108; 111]%N
    /\ cf body_m = Str [116; 101; 120; 116]%N
    /\ cf_bytes meta_m = [x5f; x6d; x65; x74; x61; x00; x74; x65; x78; x74].
Proof. do 3 eexists. repeat split. Qed.

Example ex_delete_raises_TypeError :
  RevisionDelete.mutations ex_delete = Raise TypeError.
Proof. reflexivity. Qed.

Example empty_delete_returns_None :
  RevisionDelete.mutations (RevisionDelete.mk [] 2000) = Return RNone.
Proof. reflexivity. Qed.

Example truncated_blob_is_ill_formed : ill_formed [x0a; x05].
Proof. reflexivity. Qed.

(** * Further properties of the compilers *)

(** ** Shape of the Revision output *)

Lemma extension_only_timestamp (cs1 cs2 : list Component.t) (ts : Z)
    (c : Component.t) :
  Revision.extension (Revision.mk cs1 ts) c
  = Revision.extension (Revision.mk cs2 ts) c.
Proof. reflexivity. Qed.

Lemma length_extension (self : Revision.t) (c : Component.t) :
  length (Revision.extension self c) = length (Component.views c) + 2.
Proof.
  unfold Revision.extension, Revision.view_mutations.
  rewrite length_app, !length_map. reflexivity.
Qed.

Lemma length_component_sequence (self : Revision.t) (c : Component.t) :
  length (component_sequence self c) = length (Component.views c) + 2.
Proof.
  unfold component_sequence, Revision.view_mutations.
  rewrite length_app, length_map. simpl. lia.
Qed.

(** X1: [Revision.mutations] returns the empty list exactly when the
    revision has no components. *)
Theorem Revision_mutations_nil_iff (self : Revision.t) :
  Revision.mutations self = [] <-> Revision.components self = [].
Proof.
  rewrite Revision_mutations_flat_map. split.
  - destruct (Revision.components self) as [|c l]; [reflexivity|].
    cbn [flat_map]. intros H. apply (f_equal (@length element)) in H.
    rewrite length_app, length_extension in H. simpl in H. lia.
  - intros ->. reflexivity.
Qed.

(** X2: compiling a batch is the same as compiling its two halves under the
    same timestamp and concatenating the results. *)
Theorem Revision_mutations_app (cs1 cs2 : list Component.t) (ts : Z) :
  Revision.mutations (Revision.mk (cs1 ++ cs2) ts)
  = Revision.mutations (Revision.mk cs1 ts)
    ++ Revision.mutations (Revision.mk cs2 ts).
Proof.
  rewrite !Revision_mutations_flat_map. cbn [Revision.components].
  rewrite flat_map_app. f_equal; apply flat_map_ext; intros c;
    apply extension_only_timestamp.
Qed.

(** X3: the output has [k + 2] top-level elements for each component with
    [k] views, and holds as many mutations. *)
Theorem Revision_mutations_length (self : Revision.t) :
  length (Revision.mutations self)
  = list_sum (map (fun c => length (Component.views c) + 2)
                  (Revision.components self))
  /\ length (flat_map element_mutations (Revision.mutations self))
     = length (Revision.mutations self).
Proof.
  assert (H1 : length (Revision.mutations self)
               = list_sum (map (fun c => length (Component.views c) + 2)
                               (Revision.components self))).
  { rewrite Revision_mutations_flat_map.
    induction (Revision.components self) as [|c l IH]; [reflexivity|].
    cbn [flat_map map list_sum]. rewrite length_app, length_extension, IH.
    reflexivity. }
  split; [exact H1|]. rewrite H1, Revision_mutations_contents. clear H1.
  induction (Revision.components self) as [|c l IH]; [reflexivity|].
  cbn [flat_map map list_sum]. rewrite length_app, IH, length_component_sequence.
  reflexivity.
Qed.

(** X4: [Revision.mutations] never emits a delete marker: every top-level
    element is a put, or a list holding exactly one put. *)
Theorem Revision_mutations_put_shape (self : Revision.t) :
  Forall put_shape (Revision.mutations self).
Proof.
  rewrite Revision_mutations_flat_map.
  induction (Revision.components self) as [|c l IH]; [constructor|].
  cbn [flat_map]. apply Forall_app. split; [|exact IH].
  unfold Revision.extension. apply Forall_app. split.
  - apply Forall_map. unfold Revision.view_mutations.
    apply Forall_map, Forall_forall. intros v _. reflexivity.
  - repeat constructor. eexists. split; reflexivity.
Qed.

(** ** The reserved metadata family *)

Lemma length_metadata_prefix_bytes : length METADATA_COMPONENT_PREFIX_BYTES = 6.
Proof. reflexivity. Qed.

(** X5: the metadata mutation of a component is never written at the key of
    the component's own body: their families differ. *)
Theorem metadata_key_differs_from_body_key (self : Revision.t) (c : Component.t) :
  Forall (fun m => View.pb_key_from_mutation m
                   <> View.pb_key_from_mutation (Revision.component_mutation self c))
         (Revision.component_metadata_mutation self c).
Proof.
  constructor; [|constructor]. intros H.
  apply (f_equal komorebi_pb2.cf) in H.
  cbn [View.pb_key_from_mutation komorebi_pb2.cf] in H.
  unfold cf_bytes in H. cbn [cf Mutation_put Revision.component_mutation] in H.
  rewrite metadata_family_bytes in H.
  apply (f_equal (@length byte)) in H.
  rewrite length_app, length_metadata_prefix_bytes in H. lia.
Qed.

(** X6: the reserved prefix is not checked against component types: the body
    of a component whose type is the prefix followed by [t] is written at the
    key of the metadata of the component of type [t] with the same
    [doc_id], qualifier and visibility. *)
Theorem prefixed_type_body_meets_metadata_key (self : Revision.t)
    (c : Component.t) :
  Forall (fun m => View.pb_key_from_mutation
                     (Revision.component_mutation self (prefixed_type c))
                   = View.pb_key_from_mutation m)
         (Revision.component_metadata_mutation self c).
Proof. constructor; [reflexivity | constructor]. Qed.

(** ** What a manifest records *)

(** X7: two components have the same manifest exactly when their revisions
    write the same sequence of keys for them. *)
Theorem manifest_eq_iff_keys (self1 self2 : Revision.t) (c1 c2 : Component.t) :
  Revision.view_key_set_pb_encoded self1 c1
  = Revision.view_key_set_pb_encoded self2 c2
  <-> map View.pb_key_from_mutation (component_sequence self1 c1)
      = map View.pb_key_from_mutation (component_sequence self2 c2).
Proof.
  split; intros H.
  - pose proof (deserialize_manifest self1 c1) as H1.
    rewrite H, deserialize_manifest in H1.
    injection H1 as H1. symmetry. exact H1.
  - unfold Revision.view_key_set_pb_encoded.
    rewrite !view_keys_component_sequence, H. reflexivity.
Qed.

Lemma view_keys_strip_payload (self1 self2 : Revision.t) (c : Component.t) :
  Revision.view_keys self1 c = Revision.view_keys self2 (strip_payload c).
Proof.
  unfold Revision.view_keys. f_equal.
  unfold Revision.view_mutations, strip_payload. cbn [Component.views].
  rewrite !map_map. apply map_ext. intros v. reflexivity.
Qed.

(** X8: a manifest is a pure address list.  It does not change with the
    revision's timestamp, the component's content, the views' values, or
    with a family being given as text rather than as its encoded bytes. *)
Theorem manifest_ignores_payload (self1 self2 : Revision.t) (c : Component.t) :
  Revision.view_key_set_pb_encoded self1 c
  = Revision.view_key_set_pb_encoded self2 (strip_payload c).
Proof.
  unfold Revision.view_key_set_pb_encoded.
  rewrite (view_keys_strip_payload self1 self2 c). reflexivity.
Qed.

(** ** Outcomes of RevisionDelete *)

(** X11: [RevisionDelete.mutations] returns only for the empty collection,
    and then returns [None]; given any blob, decodable or not, the call
    raises. *)
Theorem RevisionDelete_returns_only_on_empty (self : RevisionDelete.t) :
  (RevisionDelete.mutations self = Return RNone
   <-> RevisionDelete.pb_encoded_key_sets self = [])
  /\ (forall v, RevisionDelete.mutations self = Return v ->
                v = RNone /\ RevisionDelete.pb_encoded_key_sets self = []).
Proof.
  unfold RevisionDelete.mutations.
  destruct (RevisionDelete.pb_encoded_key_sets self) as [|blob rest].
  - split; [split; reflexivity|]. cbn. intros v [= <-]. split; reflexivity.
  - destruct (loop_nonempty_raises self blob rest []) as [e ->]. cbn [bind].
    split; [split; discriminate | discriminate].
Qed.

(** ** The manifests of a whole revision *)

Lemma map_flat_map_comm {A B C : Type} (f : B -> C) (g : A -> list B)
    (l : list A) :
  map f (flat_map g l) = flat_map (fun a => map f (g a)) l.
Proof.
  induction l as [|a l IH]; [reflexivity|].
  cbn [flat_map]. rewrite map_app, IH. reflexivity.
Qed.

(** X12: the manifests a revision stores are the values of its metadata
    mutations; each decodes to the keys of the mutations written for its
    component, and taken in component order the decoded manifests list the
    key of every mutation of the output, in output order. *)
Theorem stored_manifests_list_written_keys (self : Revision.t) :
  Forall2 (fun c blob =>
             exists m, Revision.component_metadata_mutation self c = [m]
                       /\ value m = Bytes blob
                       /\ deserialize_pb_encoded_key_set blob
                          = Return (komorebi_pb2.mkKeySet
                                      (map View.pb_key_from_mutation
                                           (component_sequence self c))))
          (Revision.components self) (stored_manifests self)
  /\ exists kss : list komorebi_pb2.KeySet,
       Forall2 (fun blob ks => deserialize_pb_encoded_key_set blob = Return ks)
               (stored_manifests self) kss
       /\ flat_map komorebi_pb2.keys kss
          = map View.pb_key_from_mutation
                (flat_map element_mutations (Revision.mutations self)).
Proof.
  split.
  - unfold stored_manifests.
    induction (Revision.components self) as [|c cs IH]; constructor; [|exact IH].
    eexists. split; [reflexivity|]. split; [reflexivity|].
    apply deserialize_manifest.
  - exists (map (fun c => komorebi_pb2.mkKeySet
                            (map View.pb_key_from_mutation
                                 (component_sequence self c)))
                (Revision.components self)).
    split.
    + unfold stored_manifests.
      induction (Revision.components self) as [|c cs IH]; constructor;
        [apply deserialize_manifest | exact IH].
    + rewrite Revision_mutations_contents, map_flat_map_comm.
      rewrite flat_map_concat_map, map_map, <- flat_map_concat_map.
      reflexivity.
Qed.

(** ** Timestamps chosen at construction *)

Lemma contents_timestamps (self : Revision.t) :
  Forall (fun m => timestamp m = Revision.timestamp_ms self)
         (flat_map (component_sequence self) (Revision.components self)).
Proof.
  induction (Revision.components self) as [|c l IH]; cbn [flat_map].
  - constructor.
  - apply Forall_app. split; [apply component_sequence_timestamps | exact IH].
Qed.

(** X13: a timestamp passed to the constructor, zero included, is the one
    every mutation of the revision carries whatever the clock reads; only
    when it is left out does the clock reading take its place.  A
    [RevisionDelete] keeps its timestamp by the same rule. *)
Theorem constructor_timestamp (now_ms ts : Z) (cs : list Component.t)
    (blobs : list bytes) :
  Forall (fun m => timestamp m = ts)
         (flat_map element_mutations
                   (Revision.mutations (Revision.init now_ms cs (Some ts))))
  /\ Forall (fun m => timestamp m = now_ms)
            (flat_map element_mutations
                      (Revision.mutations (Revision.init now_ms cs None)))
  /\ RevisionDelete.timestamp_ms (RevisionDelete.init now_ms blobs (Some ts))
     = ts
  /\ RevisionDelete.timestamp_ms (RevisionDelete.init now_ms blobs None)
     = now_ms.
Proof.
  repeat split.
  - rewrite Revision_mutations_contents.
    apply (contents_timestamps (Revision.init now_ms cs (Some ts))).
  - rewrite Revision_mutations_contents.
    apply (contents_timestamps (Revision.init now_ms cs None)).
Qed.

(** ** One-shot collections *)

Lemma passes_after (ts : Z) (cs : list Obj.Component) (acc : list element) :
  snd (Obj.passes ts cs acc) = map Obj.after_pass cs.
Proof.
  revert acc. induction cs as [|c cs IH]; intros acc; [reflexivity|].
  cbn [Obj.passes map].
  assert (Hp : snd (Obj.pass ts c) = Obj.after_pass c).
  { unfold Obj.pass, Obj.after_pass. destruct (Obj.views c); reflexivity. }
  destruct (Obj.pass ts c) as [ext c']. cbn [snd] in Hp. subst c'.
  specialize (IH (acc ++ ext)).
  destruct (Obj.passes ts cs (acc ++ ext)) as [out rest']. cbn [snd] in *.
  rewrite IH. reflexivity.
Qed.

Lemma second_call_compiles (self : Obj.Revision) :
  fst (Obj.mutations (snd (Obj.mutations self)))
  = Revision.mutations (Obj.snapshot (snd (Obj.mutations self))).
Proof.
  unfold Obj.mutations at 1.
  pose proof (passes_output
                (Obj.timestamp_ms (snd (Obj.mutations self)))
                (pending (Obj.components (snd (Obj.mutations self)))) []) as Hp.
  destruct (Obj.passes _ _ _) as [out cs']. cbn [fst] in *. subst out.
  rewrite Revision_mutations_flat_map. unfold Obj.snapshot.
  cbn [Revision.components app].
  rewrite flat_map_concat_map, (flat_map_concat_map _ (map _ _)), map_map.
  reflexivity.
Qed.

(** X9: a revision whose components come from a one-shot iterator compiles
    them once: after a call the iterator is used up, and the next call on
    the same object returns the empty list. *)
Theorem second_call_after_generator_is_empty (cs : list Obj.Component)
    (ts : Z) :
  Obj.components (snd (Obj.mutations (Obj.mkRevision (OneShot cs) ts)))
  = OneShot []
  /\ fst (Obj.mutations (snd (Obj.mutations (Obj.mkRevision (OneShot cs) ts))))
     = [].
Proof.
  rewrite call_exhausts_generator. split; reflexivity.
Qed.

(** X10: for components held in a list, the first call uses up every views
    collection that is a one-shot iterator: the next call compiles each
    such component without views (body and metadata only, the manifest
    listing two keys), and the others as before. *)
Theorem second_call_drops_generator_views (cs : list Obj.Component) (ts : Z) :
  fst (Obj.mutations (snd (Obj.mutations (Obj.mkRevision (Sequence cs) ts))))
  = Revision.mutations
      (Revision.mk
         (map (fun c => Obj.seen c (match Obj.views c with
                                    | Sequence vs => vs
                                    | OneShot _ => []
                                    end)) cs)
         ts).
Proof.
  rewrite second_call_compiles. unfold Obj.snapshot, Obj.mutations.
  cbn [Obj.components Obj.timestamp_ms pending].
  pose proof (passes_after ts cs []) as Hp.
  destruct (Obj.passes ts cs []) as [out cs']. cbn [snd] in Hp. subst cs'.
  cbn [snd Obj.components Obj.timestamp_ms pending]. rewrite map_map.
  f_equal. f_equal. apply map_ext. intros c.
  unfold Obj.after_pass, Obj.seen. cbn [Obj.views Obj.doc_id Obj.component_type
    Obj.qualifier Obj.visibility Obj.content].
  destruct (Obj.views c); reflexivity.
Qed.

(** ** Default qualifiers *)

Lemma build_views_omitted (args : list ViewArgs) :
  forallb omitted_view args = true ->
  forall g,
    map View.qualifier (fst (build_views g args))
    = map (supply g) (seq (drawn g) (length args))
    /\ snd (build_views g args) = mkRng (supply g) (drawn g + length args).
Proof.
  induction args as [|a rest IH]; intros Hom g.
  - destruct g as [s d]. cbn. rewrite Nat.add_0_r. split; reflexivity.
  - cbn [forallb] in Hom. apply andb_true_iff in Hom as [Ha Hrest].
    unfold omitted_view in Ha. cbn [build_views]. unfold View.init.
    destruct (va_qualifier a); [discriminate|].
    cbn [uuid4_hex].
    destruct (IH Hrest (mkRng (supply g) (S (drawn g)))) as [IH1 IH2].
    destruct (build_views (mkRng (supply g) (S (drawn g))) rest) as [vs g'].
    cbn [fst snd supply drawn] in *. subst g'.
    cbn [map View.qualifier length seq]. rewrite IH1.
    split; [reflexivity | f_equal; lia].
Qed.

(** X14: when the generator never hands out the same token twice, views
    constructed one after the other without a qualifier all get different
    qualifiers: each construction draws a token of its own. *)
Theorem default_qualifiers_distinct (g : rng) (args : list ViewArgs) :
  (forall i j, supply g i = supply g j -> i = j) ->
  forallb omitted_view args = true ->
  NoDup (map View.qualifier (fst (build_views g args))).
Proof.
  intros Hinj Hom.
  destruct (build_views_omitted args Hom g) as [-> _].
  apply NoDup_map_NoDup_ForallPairs; [|apply seq_NoDup].
  intros i j _ _. apply Hinj.
Qed.

Lemma default_qualifiers_distinct_witness :
  (forall i j, supply ex_rng_a i = supply ex_rng_a j -> i = j)
  /\ forallb omitted_view
       [mkViewArgs [104]%N None [] (Bytes []) (Bytes []);
        mkViewArgs [104]%N None [] (Bytes []) (Bytes [])] = true
  /\ NoDup (map View.qualifier
                (fst (build_views ex_rng_a
                        [mkViewArgs [104]%N None [] (Bytes []) (Bytes []);
                         mkViewArgs [104]%N None [] (Bytes []) (Bytes [])]))).
Proof.
  assert (Hinj : forall i j, supply ex_rng_a i = supply ex_rng_a j -> i = j).
  { intros i j H. cbn in H. injection H as H. lia. }
  split; [exact Hinj|]. split; [reflexivity|].
  apply (default_qualifiers_distinct ex_rng_a
           [mkViewArgs [104]%N None [] (Bytes []) (Bytes []);
            mkViewArgs [104]%N None [] (Bytes []) (Bytes [])] Hinj).
  reflexivity.
Defined.

(** ** The View methods *)

(** X15: what the loop writes for a view is what the view's own methods
    give: for a view of a component of the revision, [View.mutation] at the
    revision timestamp is an element of the output, and
    [View.pb_key_from_mutation] of it is a descriptor of the component's
    decoded manifest. *)
Theorem view_methods_agree (self : Revision.t) (c : Component.t) (v : View.t) :
  In c (Revision.components self) ->
  In v (Component.views c) ->
  In (EMutation (View.mutation v (Revision.timestamp_ms self)))
     (Revision.mutations self)
  /\ exists key_set,
       deserialize_pb_encoded_key_set (Revision.view_key_set_pb_encoded self c)
       = Return key_set
       /\ In (View.pb_key_from_mutation
                (View.mutation v (Revision.timestamp_ms self)))
             (komorebi_pb2.keys key_set).
Proof.
  intros Hc Hv.
  assert (Hvm : In (View.mutation v (Revision.timestamp_ms self))
                   (Revision.view_mutations self c)).
  { rewrite view_mutations_method.
    apply (in_map (fun view => View.mutation view (Revision.timestamp_ms self))).
    exact Hv. }
  split.
  - rewrite Revision_mutations_flat_map. apply in_flat_map.
    exists c. split; [exact Hc|].
    unfold Revision.extension. apply in_or_app. left.
    apply in_map. exact Hvm.
  - eexists. split; [apply deserialize_manifest|].
    cbn [komorebi_pb2.keys]. apply in_map.
    unfold component_sequence. apply in_or_app. left. exact Hvm.
Qed.

Lemma view_methods_agree_witness :
  In ex_component (Revision.components ex_revision)
  /\ In ex_view (Component.views ex_component)
  /\ In (EMutation (View.mutation ex_view (Revision.timestamp_ms ex_revision)))
        (Revision.mutations ex_revision)
  /\ exists key_set,
       deserialize_pb_encoded_key_set
         (Revision.view_key_set_pb_encoded ex_revision ex_component)
       = Return key_set
       /\ In (View.pb_key_from_mutation
                (View.mutation ex_view (Revision.timestamp_ms ex_revision)))
             (komorebi_pb2.keys key_set).
Proof.
  assert (Hc : In ex_component (Revision.components ex_revision))
    by (left; reflexivity).
  assert (Hv : In ex_view (Component.views ex_component))
    by (left; reflexivity).
  split; [exact Hc|]. split; [exact Hv|].
  exact (view_methods_agree ex_revision ex_component ex_view Hc Hv).
Defined.
